(** * The dimension-pair generator of datakit's varint library

  [deps/varint/util/dimensionPairMap.py] is a Python script that prints a
  C header fragment: one packing macro, three accessor macros and an
  enumeration of 144 constants.  This development embeds

  - the Python the script runs ([range], [str], [str.format], [print]
    on a standard output that is a string), in [Module Py];
  - the script itself, statement by statement, in [Module Script];
  - the C the script emits: a lexer, a parser and an evaluator for the
    constant expressions of the macro bodies, in [Module C], and a reader
    for the [#define] and enumerator lines, in [Module Header];
  - the header read back from the script's output, in [Module Generated];
  - the four macros as functions on [Z], in [Module Codec],

  and proves the packing laws and the shape of the generated table. *)

From Stdlib Require Import ZArith List String Ascii Bool Lia.
From Stdlib Require Import DecimalString FinFun.
Import ListNotations.

Local Open Scope string_scope.
Local Open Scope Z_scope.

(** The line feed that [print] appends and that separates the lines of a
  triple-quoted literal. *)
Definition nl : string := String (ascii_of_nat 10) EmptyString.

(* ================================================================== *)
(** ** The Python fragment the script uses *)

Module Py.

(** Exceptions the modelled built-ins can raise. *)
Inductive exn : Type :=
| IndexError
| ValueError.

(** A statement runs on the text written to standard output so far and
    either raises or returns a value with the extended output. *)
Definition io (A : Type) : Type := string -> exn + (A * string).

Definition ret {A : Type} (a : A) : io A := fun out => inr (a, out).

Definition bind {A B : Type} (m : io A) (k : A -> io B) : io B :=
  fun out =>
    match m out with
    | inl e => inl e
    | inr (a, out') => k a out'
    end.

Definition raise {A : Type} (e : exn) : io A := fun _ => inl e.

Definition lift {A : Type} (r : exn + A) : io A :=
  match r with
  | inl e => raise e
  | inr a => ret a
  end.

Notation "x <- m ;; k" := (bind m (fun x => k))
  (at level 61, m at next level, right associativity).
Notation "m ;;; k" := (bind m (fun _ => k))
  (at level 61, right associativity).

(** [range(lo, hi)]: the integers [lo], [lo + 1], ..., [hi - 1]. *)
Definition range (lo hi : Z) : list Z :=
  map (fun i => lo + Z.of_nat i) (seq 0 (Z.to_nat (hi - lo))).

(** [for v in xs: body]. *)
Fixpoint for_in {A : Type} (xs : list A) (body : A -> io unit) : io unit :=
  match xs with
  | [] => ret tt
  | x :: rest => body x ;;; for_in rest body
  end.

(** The decimal numeral of an integer: digits, a leading minus sign when
    negative, never a sign or padding otherwise. *)
Definition decimal (n : Z) : string := NilZero.string_of_int (Z.to_int n).

(** [sys.int_max_str_digits], as the interpreter starts with. *)
Definition max_str_digits : Z := 4300.

(** The least number with more digits than that, [10 ^ 4300], computed
    once. *)
Definition str_limit : Z := Eval vm_compute in 10 ^ max_str_digits.

(** [str(n)] for an [int]: its decimal numeral.  CPython (3.11, and the
    security releases of 3.7 to 3.10) refuses to convert an integer of
    more than [sys.int_max_str_digits] digits and raises [ValueError]; an
    integer has more than 4300 digits exactly when its absolute value
    reaches [10 ^ 4300]. *)
Definition str (n : Z) : exn + string :=
  if Z.abs n <? str_limit then inr (decimal n) else inl ValueError.

(** [template.format(a0, a1, ...)] for templates whose replacement fields are
    all the automatic field [{}], with [render] turning an argument into
    text.  The fields are filled from left to right: each [{}] takes the
    next argument and is replaced by its rendering, and the first failure
    ends the call.  A field without an argument left raises [IndexError];
    surplus arguments are ignored, as in Python.  A doubled brace is an
    escaped brace.  Any other use of a brace (named or numbered fields,
    conversions) is outside this fragment and is reported as
    [ValueError]. *)
Fixpoint format_with (render : Z -> exn + string)
    (template : string) (args : list Z) : exn + string :=
  match template with
  | EmptyString => inr EmptyString
  | String c rest =>
      let keep (r : exn + string) : exn + string :=
        match r with
        | inl e => inl e
        | inr s => inr (String c s)
        end in
      match rest with
      | String d rest' =>
          if (c =? "{")%char && (d =? "}")%char then
            match args with
            | [] => inl IndexError
            | a :: args' =>
                match render a with
                | inl e => inl e
                | inr text =>
                    match format_with render rest' args' with
                    | inl e => inl e
                    | inr s => inr (text ++ s)%string
                    end
                end
            end
          else if ((c =? "{")%char && (d =? "{")%char)
               || ((c =? "}")%char && (d =? "}")%char) then
            keep (format_with render rest' args)
          else if (c =? "{")%char || (c =? "}")%char then
            inl ValueError
          else
            keep (format_with render rest args)
      | EmptyString =>
          if (c =? "{")%char || (c =? "}")%char then inl ValueError
          else inr (String c EmptyString)
      end
  end.

(** Integer arguments are rendered by [str]. *)
Definition format (template : string) (args : list Z) : exn + string :=
  format_with str template args.

(** [print(s)]: the text followed by a line feed. *)
Definition print (s : string) : io unit :=
  fun out => inr (tt, (out ++ s ++ nl)%string).

(** [print()]: an empty line. *)
Definition print_empty : io unit := print EmptyString.

(** [1 << n] for a non-negative [n]; Python integers are unbounded, so
    there is no wrap-around. *)
Definition shl (a n : Z) : Z := Z.shiftl a n.

End Py.

(* ================================================================== *)
(** ** The script *)

Module Script.
Import Py.

(** Line 6: the packing macro. *)
Definition pair_define : string :=
  "#define VARINT_DIMENSION_PAIR_PAIR(x, y, sparse) (((x) << 4) | ((y - 1) << 1) | (sparse))".

(** Lines 9-12: the triple-quoted literal with the three accessors; it
    ends with a line feed of its own. *)
Definition row_define : string :=
  "#define VARINT_DIMENSION_PAIR_WIDTH_ROW_COUNT(dim) ((dim) >> 4)".
Definition col_define : string :=
  "#define VARINT_DIMENSION_PAIR_WIDTH_COL_COUNT(dim) ((((dim) >> 1) & 0x03) + 1)".
Definition sparse_define : string :=
  "#define VARINT_DIMENSION_PAIR_IS_SPARSE(dim) ((dim) & 0x01)".

Definition accessor_defines : string :=
  (row_define ++ nl ++ col_define ++ nl ++ sparse_define ++ nl)%string.

(** Lines 20 and 25: the two templates. *)
Definition dense_template : string :=
  "VARINT_DIMENSION_PAIR_DENSE_{}_{} = VARINT_DIMENSION_PAIR_PAIR({}, {}, 0), /* up to {} x {} */".
Definition sprse_template : string :=
  "VARINT_DIMENSION_PAIR_SPRSE_{}_{} = VARINT_DIMENSION_PAIR_PAIR({}, {}, 1), /* up to {} x {} */".

Definition enum_open : string := "typedef enum varintDimensionPair {".
Definition enum_close : string := "} varintDimensionPair;".

(** Lines 21-23 and 26-28: the arguments of both [format] calls. *)
Definition format_args (x y : Z) : list Z :=
  [x; y; x; y; shl 1 (x * 8) - 1; shl 1 (y * 8) - 1].

(** Lines 19-28: the body of the inner loop. *)
Definition loop_body (x y : Z) : io unit :=
  dense <- lift (format dense_template (format_args x y)) ;;
  print dense ;;;
  sprse <- lift (format sprse_template (format_args x y)) ;;
  print sprse.

(** The whole script, lines 5-29. *)
Definition main : io unit :=
  print pair_define ;;;
  print accessor_defines ;;;
  print_empty ;;;
  print enum_open ;;;
  for_in (range 0 9) (fun x =>
    for_in (range 1 9) (fun y =>
      loop_body x y)) ;;;
  print enum_close.

(** The output a statement leaves, or the exception it raised. *)
Definition output_of (r : exn + (unit * string)) : exn + string :=
  match r with
  | inl e => inl e
  | inr (_, out) => inr out
  end.

(** What a run on an empty standard output leaves there. *)
Definition stdout : exn + string := output_of (main EmptyString).

End Script.

(* ================================================================== *)
(** ** Text helpers *)

Module Text.

(** [strip_prefix p s]: what follows [p] when [s] starts with [p]. *)
Fixpoint strip_prefix (p s : string) : option string :=
  match p, s with
  | EmptyString, _ => Some s
  | String a p', String b s' =>
      if (a =? b)%char then strip_prefix p' s' else None
  | String _ _, EmptyString => None
  end.

(** [cut sep s]: the text before the first occurrence of [sep] in [s]
    and the text after it. *)
Fixpoint cut (sep s : string) : option (string * string) :=
  match strip_prefix sep s with
  | Some after => Some (EmptyString, after)
  | None =>
      match s with
      | EmptyString => None
      | String c s' =>
          match cut sep s' with
          | Some (before, after) => Some (String c before, after)
          | None => None
          end
      end
  end.

(** The lines of a text: the pieces between line feeds.  A text that
    ends with a line feed has an empty last piece. *)
Fixpoint lines (s : string) : list string :=
  match s with
  | EmptyString => [EmptyString]
  | String c rest =>
      if (c =? ascii_of_nat 10)%char then EmptyString :: lines rest
      else
        match lines rest with
        | [] => [String c EmptyString]
        | l :: ls => String c l :: ls
        end
  end.

(** Leading and trailing blanks removed. *)
Fixpoint drop_blanks (s : string) : string :=
  match s with
  | String c rest => if (c =? " ")%char then drop_blanks rest else s
  | EmptyString => EmptyString
  end.

Fixpoint drop_trailing_blanks (s : string) : string :=
  match s with
  | EmptyString => EmptyString
  | String c rest =>
      match drop_trailing_blanks rest with
      | EmptyString => if (c =? " ")%char then EmptyString
                       else String c EmptyString
      | r => String c r
      end
  end.

Definition trim (s : string) : string :=
  drop_trailing_blanks (drop_blanks s).

End Text.

(* ================================================================== *)
(** ** The C the script emits *)

Module C.
Import Text.

(** Binary operators of C's integer constant expressions that the
    header can use, each with its C precedence (a higher number binds
    tighter); all are left-associative. *)
Inductive binop : Type :=
| Add | Sub | Shl | Shr | BitAnd | BitXor | BitOr.

Definition prec (o : binop) : nat :=
  match o with
  | Add | Sub => 4
  | Shl | Shr => 3
  | BitAnd => 2
  | BitXor => 1
  | BitOr => 0
  end%nat.

Inductive token : Type :=
| LPAREN
| RPAREN
| COMMA
| ASSIGN
| IDENT (name : string)
| NUM (value : Z)
| OP (o : binop).

Inductive expr : Type :=
| Num (value : Z)
| Var (name : string)
| Bin (o : binop) (l r : expr).

(** *** Lexer *)

Definition between (lo hi c : ascii) : bool :=
  ((nat_of_ascii lo <=? nat_of_ascii c)
   && (nat_of_ascii c <=? nat_of_ascii hi))%nat.

Definition is_digit (c : ascii) : bool := between "0" "9" c.

Definition is_word_char (c : ascii) : bool :=
  between "a" "z" c || between "A" "Z" c || is_digit c || (c =? "_")%char.

(** The value of a digit in bases up to 16. *)
Definition digit_value (c : ascii) : option Z :=
  if is_digit c then
    Some (Z.of_nat (nat_of_ascii c) - Z.of_nat (nat_of_ascii "0"))
  else if between "a" "f" c then
    Some (Z.of_nat (nat_of_ascii c) - Z.of_nat (nat_of_ascii "a") + 10)
  else if between "A" "F" c then
    Some (Z.of_nat (nat_of_ascii c) - Z.of_nat (nat_of_ascii "A") + 10)
  else None.

Fixpoint digits (base : Z) (s : string) (acc : Z) : option Z :=
  match s with
  | EmptyString => Some acc
  | String c rest =>
      match digit_value c with
      | Some d => if d <? base then digits base rest (acc * base + d)
                  else None
      | None => None
      end
  end.

(** An integer literal without suffix: [0x] and [0X] start a hexadecimal
    literal, any other leading [0] an octal one, anything else is
    decimal. *)
Definition literal (s : string) : option Z :=
  match s with
  | EmptyString => None
  | String c EmptyString => digits 10 s 0
  | String c (String d rest) =>
      if (c =? "0")%char && ((d =? "x")%char || (d =? "X")%char) then
        match rest with
        | EmptyString => None
        | _ => digits 16 rest 0
        end
      else if (c =? "0")%char then digits 8 (String d rest) 0
      else digits 10 s 0
  end.

(** A maximal run of word characters is a literal when it starts with a
    digit and an identifier otherwise. *)
Definition word_token (w : string) : option token :=
  match w with
  | EmptyString => None
  | String c _ =>
      if is_digit c then
        match literal w with
        | Some z => Some (NUM z)
        | None => None
        end
      else Some (IDENT w)
  end.

(** [flush (w, ts)]: the pending word, if any, becomes the first token. *)
Definition flush (r : option (string * list token)) : option (list token) :=
  match r with
  | None => None
  | Some (EmptyString, ts) => Some ts
  | Some (w, ts) =>
      match word_token w with
      | Some t => Some (t :: ts)
      | None => None
      end
  end.

Definition emit (t : token) (r : option (list token))
  : option (string * list token) :=
  match r with
  | Some ts => Some (EmptyString, t :: ts)
  | None => None
  end.

(** [lex s] returns the word characters [s] starts with, not yet made a
    token because the word may extend to the left, and the tokens of the
    rest.  Blanks separate tokens; a character outside the fragment
    makes the lexer fail. *)
Fixpoint lex (s : string) : option (string * list token) :=
  match s with
  | EmptyString => Some (EmptyString, [])
  | String c rest =>
      if is_word_char c then
        match lex rest with
        | Some (w, ts) => Some (String c w, ts)
        | None => None
        end
      else if (c =? " ")%char then
        match flush (lex rest) with
        | Some ts => Some (EmptyString, ts)
        | None => None
        end
      else if (c =? "(")%char then emit LPAREN (flush (lex rest))
      else if (c =? ")")%char then emit RPAREN (flush (lex rest))
      else if (c =? ",")%char then emit COMMA (flush (lex rest))
      else if (c =? "=")%char then emit ASSIGN (flush (lex rest))
      else if (c =? "+")%char then emit (OP Add) (flush (lex rest))
      else if (c =? "-")%char then emit (OP Sub) (flush (lex rest))
      else if (c =? "&")%char then emit (OP BitAnd) (flush (lex rest))
      else if (c =? "^")%char then emit (OP BitXor) (flush (lex rest))
      else if (c =? "|")%char then emit (OP BitOr) (flush (lex rest))
      else
        match rest with
        | String d rest' =>
            if (c =? "<")%char && (d =? "<")%char then
              emit (OP Shl) (flush (lex rest'))
            else if (c =? ">")%char && (d =? ">")%char then
              emit (OP Shr) (flush (lex rest'))
            else None
        | EmptyString => None
        end
  end.

Definition tokens (s : string) : option (list token) := flush (lex s).

(** *** Parser: precedence climbing, bounded by [fuel] *)

Fixpoint parse_expr (fuel : nat) (min : nat) (ts : list token)
  : option (expr * list token) :=
  match fuel with
  | O => None
  | S fuel' =>
      match parse_primary fuel' ts with
      | Some (lhs, rest) => parse_rest fuel' min lhs rest
      | None => None
      end
  end

with parse_primary (fuel : nat) (ts : list token)
  : option (expr * list token) :=
  match fuel with
  | O => None
  | S fuel' =>
      match ts with
      | NUM z :: rest => Some (Num z, rest)
      | IDENT x :: rest => Some (Var x, rest)
      | LPAREN :: rest =>
          match parse_expr fuel' 0 rest with
          | Some (e, RPAREN :: rest') => Some (e, rest')
          | _ => None
          end
      | _ => None
      end
  end

with parse_rest (fuel : nat) (min : nat) (lhs : expr) (ts : list token)
  : option (expr * list token) :=
  match fuel with
  | O => None
  | S fuel' =>
      match ts with
      | OP o :: rest =>
          if (min <=? prec o)%nat then
            match parse_expr fuel' (S (prec o)) rest with
            | Some (rhs, rest') => parse_rest fuel' min (Bin o lhs rhs) rest'
            | None => None
            end
          else Some (lhs, ts)
      | _ => Some (lhs, ts)
      end
  end.

(** A whole token list as one expression.  Every call consumes fuel and
    at most three calls are made per token, so this is enough fuel. *)
Definition parse (ts : list token) : option expr :=
  match parse_expr (3 * List.length ts + 3) 0 ts with
  | Some (e, []) => Some e
  | _ => None
  end.

(** *** Evaluation

    Operands are values of C's [int] as the usual targets have it: 32
    bits, two's complement.  A result of [+], [-] or [<<] that leaves
    the range is reduced modulo [2^32] into it, which is what the
    compiled macros give (ISO C leaves these cases undefined; the laws
    below that hold for every input do not rely on them).  [>>] keeps
    the sign, as gcc and clang do.  A shift count outside 0..31 has no
    value. *)

Definition int_bits : Z := 32.

Definition is_int (z : Z) : bool :=
  (- 2 ^ (int_bits - 1) <=? z) && (z <? 2 ^ (int_bits - 1)).

(** The value of type [int] congruent to [z] modulo [2^32]. *)
Definition wrap (z : Z) : Z :=
  (z + 2 ^ (int_bits - 1)) mod 2 ^ int_bits - 2 ^ (int_bits - 1).

Definition shift_count (b : Z) : bool := (0 <=? b) && (b <? int_bits).

Definition apply_binop (o : binop) (a b : Z) : option Z :=
  match o with
  | Add => Some (wrap (a + b))
  | Sub => Some (wrap (a - b))
  | Shl => if shift_count b then Some (wrap (Z.shiftl a b)) else None
  | Shr => if shift_count b then Some (Z.shiftr a b) else None
  | BitAnd => Some (Z.land a b)
  | BitXor => Some (Z.lxor a b)
  | BitOr => Some (Z.lor a b)
  end.

Fixpoint lookup (env : list (string * Z)) (x : string) : option Z :=
  match env with
  | [] => None
  | (y, v) :: env' => if (x =? y)%string then Some v else lookup env' x
  end.

(** A literal that does not fit [int] has another type and is outside
    the fragment. *)
Fixpoint eval (env : list (string * Z)) (e : expr) : option Z :=
  match e with
  | Num z => if is_int z then Some z else None
  | Var x => lookup env x
  | Bin o l r =>
      match eval env l, eval env r with
      | Some a, Some b => apply_binop o a b
      | _, _ => None
      end
  end.

End C.

(* ================================================================== *)
(** ** Reading the emitted header *)

Module Header.
Import Text C.

(** A function-like macro: [#define name(params) body]. *)
Record macro : Type := Macro {
  m_name : string;
  m_params : list string;
  m_body : expr
}.

(** One line of the enumeration:
    [name = macro(args), /* comment */]. *)
Record enumerator : Type := Enumerator {
  e_name : string;
  e_macro : string;
  e_args : list Z;
  e_comment : string
}.

Record header : Type := Build_header {
  macros : list macro;
  enumerators : list enumerator
}.

Definition empty : header := Build_header [] [].

Definition add_macro (m : macro) (h : header) : header :=
  Build_header (m :: macros h) (enumerators h).

Definition add_enumerator (e : enumerator) (h : header) : header :=
  Build_header (macros h) (e :: enumerators h).

(** Parameter names separated by commas. *)
Fixpoint param_list (ts : list token) : option (list string) :=
  match ts with
  | [IDENT a] => Some [a]
  | IDENT a :: COMMA :: rest =>
      match param_list rest with
      | Some ps => Some (a :: ps)
      | None => None
      end
  | _ => None
  end.

(** Integer literals separated by commas up to the closing parenthesis;
    also returns the tokens after it. *)
Fixpoint arg_list (ts : list token) : option (list Z * list token) :=
  match ts with
  | NUM z :: RPAREN :: rest => Some ([z], rest)
  | NUM z :: COMMA :: rest =>
      match arg_list rest with
      | Some (zs, rest') => Some (z :: zs, rest')
      | None => None
      end
  | _ => None
  end.

(** The name is followed by the parameter list without a blank, as the
    preprocessor requires of a function-like macro; the body is the rest
    of the line. *)
Definition read_define (line : string) : option macro :=
  match strip_prefix "#define " line with
  | None => None
  | Some rest =>
      match cut "(" rest with
      | None => None
      | Some (name, after_name) =>
          match cut ")" after_name with
          | None => None
          | Some (params, body) =>
              match tokens name, tokens params, tokens body with
              | Some [IDENT n], Some pts, Some bts =>
                  match param_list pts, parse bts with
                  | Some ps, Some e =>
                      if (n =? name)%string then Some (Macro n ps e)
                      else None
                  | _, _ => None
                  end
              | _, _, _ => None
              end
          end
      end
  end.

(** The code of an enumerator line is everything before its comment;
    nothing but blanks may follow the comment. *)
Definition read_enumerator (line : string) : option enumerator :=
  match cut "/*" line with
  | None => None
  | Some (code, after_open) =>
      match cut "*/" after_open with
      | None => None
      | Some (comment, after_close) =>
          match trim after_close, tokens code with
          | EmptyString, Some (IDENT name :: ASSIGN :: IDENT m :: LPAREN :: ts) =>
              match arg_list ts with
              | Some (zs, [COMMA]) => Some (Enumerator name m zs comment)
              | Some (zs, []) => Some (Enumerator name m zs comment)
              | _ => None
              end
          | _, _ => None
          end
      end
  end.

Definition starts_with (p s : string) : bool :=
  match strip_prefix p s with
  | Some _ => true
  | None => false
  end.

(** The header line by line.  Outside the enumeration a line is empty, a
    [#define] or the opening of the enumeration; inside, it is an
    enumerator or the closing brace.  Anything else is rejected, and so
    is an enumeration that is never closed. *)
Fixpoint read (in_enum : bool) (ls : list string) : option header :=
  match ls with
  | [] => if in_enum then None else Some empty
  | l :: rest =>
      if in_enum then
        if starts_with "}" l then read false rest
        else
          match read_enumerator l, read true rest with
          | Some e, Some h => Some (add_enumerator e h)
          | _, _ => None
          end
      else
        match l with
        | EmptyString => read false rest
        | _ =>
            if starts_with "#define " l then
              match read_define l, read false rest with
              | Some m, Some h => Some (add_macro m h)
              | _, _ => None
              end
            else if starts_with "typedef enum " l then read true rest
            else None
        end
  end.

(** *** Using the header *)

Fixpoint find_macro (name : string) (ms : list macro) : option macro :=
  match ms with
  | [] => None
  | m :: ms' => if (m_name m =? name)%string then Some m
                else find_macro name ms'
  end.

(** A macro applied to arguments of type [int]: each parameter stands
    for the value of its argument. *)
Definition call (m : macro) (args : list Z) : option Z :=
  if (List.length (m_params m) =? List.length args)%nat
     && forallb is_int args then
    eval (combine (m_params m) args) (m_body m)
  else None.

(** The macro of that name, applied. *)
Definition invoke (ms : list macro) (name : string) (args : list Z)
  : option Z :=
  match find_macro name ms with
  | Some m => call m args
  | None => None
  end.

(** The two parts of a header that was read, nothing when it was not. *)
Definition enumerators_of (h : option header) : list enumerator :=
  match h with
  | Some h => enumerators h
  | None => []
  end.

Definition macros_of (h : option header) : list macro :=
  match h with
  | Some h => macros h
  | None => []
  end.

Definition decimal (s : string) : option Z :=
  match s with
  | EmptyString => None
  | _ => digits 10 s 0
  end.

(** The two numbers of a comment [up to R x C]. *)
Definition annotation (e : enumerator) : option (Z * Z) :=
  match strip_prefix "up to " (trim (e_comment e)) with
  | None => None
  | Some rest =>
      match cut " x " rest with
      | None => None
      | Some (r, c) =>
          match decimal r, decimal c with
          | Some max_row, Some max_col => Some (max_row, max_col)
          | _, _ => None
          end
      end
  end.

End Header.

(* ================================================================== *)
(** ** The header the script generates *)

Module Generated.
Import Header.

(** The header in the output of a run that raised nothing. *)
Definition read_output (r : Py.exn + string) : option Header.header :=
  match r with
  | inr out => read false (Text.lines out)
  | inl _ => None
  end.

Definition header : option Header.header := read_output Script.stdout.

Definition table : list enumerator := enumerators_of header.

Definition defines : list macro := macros_of header.

(** A generated macro applied to integers. *)
Definition macro (name : string) (args : list Z) : option Z :=
  invoke defines name args.

(** The numeric value of a generated constant. *)
Definition constant (e : enumerator) : option Z :=
  macro (e_macro e) (e_args e).

End Generated.

(* ================================================================== *)
(** ** The four macros as functions on integers *)

Module Codec.

(** [(((x) << 4) | ((y - 1) << 1) | (sparse))] *)
Definition VARINT_DIMENSION_PAIR_PAIR (x y sparse : Z) : Z :=
  Z.lor (Z.lor (Z.shiftl x 4) (Z.shiftl (y - 1) 1)) sparse.

(** [((dim) >> 4)] *)
Definition VARINT_DIMENSION_PAIR_WIDTH_ROW_COUNT (dim : Z) : Z :=
  Z.shiftr dim 4.

(** [((((dim) >> 1) & 0x03) + 1)] *)
Definition VARINT_DIMENSION_PAIR_WIDTH_COL_COUNT (dim : Z) : Z :=
  Z.land (Z.shiftr dim 1) 3 + 1.

(** [((dim) & 0x01)] *)
Definition VARINT_DIMENSION_PAIR_IS_SPARSE (dim : Z) : Z :=
  Z.land dim 1.

(** The domain the column field was sized for, and the domain the
    generator enumerates. *)
Definition narrow (rowWidth colWidth sparse : Z) : Prop :=
  0 <= rowWidth <= 8 /\ 1 <= colWidth <= 4 /\ 0 <= sparse <= 1.

Definition full (rowWidth colWidth sparse : Z) : Prop :=
  0 <= rowWidth <= 8 /\ 1 <= colWidth <= 8 /\ 0 <= sparse <= 1.

End Codec.

(* ================================================================== *)
(** ** What the generated table is compared with *)

Module Expected.
Import Header.

Definition kind (sparse : Z) : string :=
  if sparse =? 0 then "DENSE" else "SPRSE".

(** The constant for [(x, y, sparse)] as the claims describe it: named
    after its kind and widths, initialised by the packing macro and
    annotated with the largest row and column counts. *)
Definition entry (x y sparse : Z) : enumerator :=
  {| e_name := "VARINT_DIMENSION_PAIR_" ++ kind sparse ++ "_"
               ++ Py.decimal x ++ "_" ++ Py.decimal y;
     e_macro := "VARINT_DIMENSION_PAIR_PAIR";
     e_args := [x; y; sparse];
     e_comment := " up to " ++ Py.decimal (2 ^ (8 * x) - 1) ++ " x "
                  ++ Py.decimal (2 ^ (8 * y) - 1) ++ " " |}%string.

Definition row_widths : list Z := [0; 1; 2; 3; 4; 5; 6; 7; 8].
Definition col_widths : list Z := [1; 2; 3; 4; 5; 6; 7; 8].

(** Row widths outermost, column widths inside, dense before sparse. *)
Definition table : list enumerator :=
  flat_map (fun x =>
    flat_map (fun y => [entry x y 0; entry x y 1]) col_widths) row_widths.

End Expected.

Definition count (p : Header.enumerator -> bool) (l : list Header.enumerator) : nat :=
  List.length (filter p l).

(** The constant is initialised with widths [x] and [y], whatever its
    flag. *)
Definition has_widths (x y : Z) (e : Header.enumerator) : bool :=
  match Header.e_args e with
  | [a; b; _] => (a =? x) && (b =? y)
  | _ => false
  end.

Fixpoint distinct (l : list string) : bool :=
  match l with
  | [] => true
  | s :: rest => negb (existsb (String.eqb s) rest) && distinct rest
  end.

(** Boolean equality of enumerators, to count and compare them. *)
Definition enumerator_eqb (a b : Header.enumerator) : bool :=
(Header.e_name a =? Header.e_name b)%string
&& (Header.e_macro a =? Header.e_macro b)%string
&& (if list_eq_dec Z.eq_dec (Header.e_args a) (Header.e_args b)
    then true else false)
&& (Header.e_comment a =? Header.e_comment b)%string.

(** The text of an enumerator line, from its four parts: the inverse of
    [Header.read_enumerator]. *)
Fixpoint join (sep : string) (l : list string) : string :=
  match l with
  | [] => EmptyString
  | [s] => s
  | s :: rest => (s ++ sep ++ join sep rest)%string
  end.

Definition line_of (e : Header.enumerator) : string :=
  (Header.e_name e ++ " = " ++ Header.e_macro e ++ "("
   ++ join ", " (map Py.decimal (Header.e_args e)) ++ "), /*"
   ++ Header.e_comment e ++ "*/")%string.

(** The column accessor applied to the value of a constant gives the
    column width the constant was initialised with. *)
Definition col_is (y : Z) (value : option Z) : bool :=
  match value with
  | Some v => Codec.VARINT_DIMENSION_PAIR_WIDTH_COL_COUNT v =? y
  | None => false
  end.

Definition decodes_col (e : Header.enumerator) : bool :=
  match Header.e_args e with
  | [_; y; _] => col_is y (Generated.constant e)
  | _ => false
  end.

(* ================================================================== *)
(** ** Arithmetic of the bit fields *)

Section BitFields.

(** Or-ing a value below [2^n] into a value shifted left by [n] adds
    it: the two have no bit in common. *)
Lemma lor_shiftl_low (a n l : Z) :
  0 <= n -> 0 <= l < 2 ^ n -> Z.lor (Z.shiftl a n) l = a * 2 ^ n + l.
Proof.
  intros Hn Hl.
  assert (Hdisj : Z.land (Z.shiftl a n) l = 0).
  { apply Z.bits_inj'. intros i Hi.
    rewrite Z.land_spec, Z.bits_0.
    destruct (Z.lt_ge_cases i n) as [Hlt | Hge].
    - now rewrite Z.shiftl_spec_low.
    - rewrite <- (Z.mod_small l (2 ^ n)) by exact Hl.
      rewrite Z.mod_pow2_bits_high by lia.
      apply andb_false_r. }
  rewrite <- Z.lxor_lor, <- Z.add_nocarry_lxor by exact Hdisj.
  now rewrite Z.shiftl_mul_pow2.
Qed.

(** Over the whole range the generator enumerates, and for any row
    width, packing is a sum of disjoint fields. *)
Lemma pair_sum (x y sparse : Z) :
  1 <= y <= 8 -> 0 <= sparse <= 1 ->
  Codec.VARINT_DIMENSION_PAIR_PAIR x y sparse
  = 16 * x + 2 * (y - 1) + sparse.
Proof.
  intros Hy Hs. unfold Codec.VARINT_DIMENSION_PAIR_PAIR.
  rewrite <- Z.lor_assoc.
  rewrite (lor_shiftl_low (y - 1) 1 sparse) by (simpl; lia).
  rewrite lor_shiftl_low by (simpl; lia).
  change (2 ^ 4) with 16. change (2 ^ 1) with 2. lia.
Qed.

Lemma row_of_sum (x low : Z) :
  0 <= low < 16 ->
  Codec.VARINT_DIMENSION_PAIR_WIDTH_ROW_COUNT (16 * x + low) = x.
Proof.
  intros Hlow. unfold Codec.VARINT_DIMENSION_PAIR_WIDTH_ROW_COUNT.
  rewrite Z.shiftr_div_pow2 by lia. change (2 ^ 4) with 16.
  symmetry. apply (Z.div_unique_pos _ 16 x low); lia.
Qed.

Lemma sparse_of_sum (k sparse : Z) :
  0 <= sparse <= 1 ->
  Codec.VARINT_DIMENSION_PAIR_IS_SPARSE (2 * k + sparse) = sparse.
Proof.
  intros Hs. unfold Codec.VARINT_DIMENSION_PAIR_IS_SPARSE.
  change 1 with (Z.ones 1). rewrite Z.land_ones by lia.
  change (2 ^ 1) with 2.
  symmetry. apply (Z.mod_unique_pos _ 2 k sparse); lia.
Qed.

Lemma col_of_sum (x y sparse : Z) :
  0 <= sparse <= 1 ->
  Codec.VARINT_DIMENSION_PAIR_WIDTH_COL_COUNT
    (16 * x + 2 * (y - 1) + sparse)
  = (y - 1) mod 4 + 1.
Proof.
  intros Hs. unfold Codec.VARINT_DIMENSION_PAIR_WIDTH_COL_COUNT.
  rewrite Z.shiftr_div_pow2 by lia. change (2 ^ 1) with 2.
  replace ((16 * x + 2 * (y - 1) + sparse) / 2) with (2 * x * 4 + (y - 1)).
  2:{ apply (Z.div_unique_pos _ 2 _ sparse); lia. }
  change 3 with (Z.ones 2). rewrite Z.land_ones by lia.
  change (2 ^ 2) with 4.
  rewrite (Z.add_comm (2 * x * 4)), Z.mod_add by lia. reflexivity.
Qed.

End BitFields.

(* ================================================================== *)
(** ** Facts about the run of the script *)

Section Run.
Import Header.

Lemma range_spec (lo hi z : Z) : In z (Py.range lo hi) <-> lo <= z < hi.
Proof.
  unfold Py.range. rewrite in_map_iff. split.
  - intros [i [<- Hi]]. apply in_seq in Hi. lia.
  - intros Hz. exists (Z.to_nat (z - lo)). split; [lia |].
    apply in_seq. lia.
Qed.

(** The loops run over exactly the widths the table is compared on. *)
Lemma range_row_widths : Py.range 0 9 = Expected.row_widths.
Proof. reflexivity. Qed.

Lemma range_col_widths : Py.range 1 9 = Expected.col_widths.
Proof. reflexivity. Qed.

(** [1 << (n * 8)] is a power of two, exactly. *)
Lemma format_args_pow (x y : Z) :
  0 <= x -> 0 <= y ->
  Script.format_args x y
  = [x; y; x; y; 2 ^ (8 * x) - 1; 2 ^ (8 * y) - 1].
Proof.
  intros Hx Hy. unfold Script.format_args, Py.shl.
  rewrite !Z.shiftl_mul_pow2 by lia.
  rewrite !Z.mul_1_l, !(Z.mul_comm 8). reflexivity.
Qed.

(** The script raises nothing. *)
Lemma script_runs : exists out, Script.stdout = inr out.
Proof. vm_compute. eexists. reflexivity. Qed.

(** Its output reads back as a header: four macros and a table. *)
Lemma defines_read :
  Generated.defines =
  [ Macro "VARINT_DIMENSION_PAIR_PAIR" ["x"; "y"; "sparse"]
      (C.Bin C.BitOr
         (C.Bin C.BitOr
            (C.Bin C.Shl (C.Var "x") (C.Num 4))
            (C.Bin C.Shl (C.Bin C.Sub (C.Var "y") (C.Num 1)) (C.Num 1)))
         (C.Var "sparse"));
    Macro "VARINT_DIMENSION_PAIR_WIDTH_ROW_COUNT" ["dim"]
      (C.Bin C.Shr (C.Var "dim") (C.Num 4));
    Macro "VARINT_DIMENSION_PAIR_WIDTH_COL_COUNT" ["dim"]
      (C.Bin C.Add
         (C.Bin C.BitAnd (C.Bin C.Shr (C.Var "dim") (C.Num 1)) (C.Num 3))
         (C.Num 1));
    Macro "VARINT_DIMENSION_PAIR_IS_SPARSE" ["dim"]
      (C.Bin C.BitAnd (C.Var "dim") (C.Num 1)) ].
Proof. vm_compute. reflexivity. Qed.

Lemma table_read : Generated.table = Expected.table.
Proof. vm_compute. reflexivity. Qed.

(** Values of type [int]. *)
Lemma is_int_spec (z : Z) :
  C.is_int z = true <-> -2147483648 <= z < 2147483648.
Proof.
  unfold C.is_int. rewrite andb_true_iff, Z.leb_le, Z.ltb_lt.
  change (2 ^ (C.int_bits - 1)) with 2147483648. reflexivity.
Qed.

Lemma wrap_small (z : Z) : -2147483648 <= z < 2147483648 -> C.wrap z = z.
Proof.
  intros Hz. unfold C.wrap.
  change (2 ^ (C.int_bits - 1)) with 2147483648.
  change (2 ^ C.int_bits) with 4294967296.
  rewrite Z.mod_small; lia.
Qed.

(** What the emitted macros evaluate to on arguments of type [int],
    wrap-around included. *)
Lemma macro_pair_int (x y sparse : Z) :
  C.is_int x = true -> C.is_int y = true -> C.is_int sparse = true ->
  Generated.macro "VARINT_DIMENSION_PAIR_PAIR" [x; y; sparse]
  = Some (Z.lor (Z.lor (C.wrap (Z.shiftl x 4))
                       (C.wrap (Z.shiftl (C.wrap (y - 1)) 1)))
                sparse).
Proof.
  intros Hx Hy Hs. unfold Generated.macro, Header.invoke.
  rewrite defines_read. unfold Header.call; simpl.
  rewrite Hx, Hy, Hs. reflexivity.
Qed.

Lemma macro_row_int (dim : Z) :
  C.is_int dim = true ->
  Generated.macro "VARINT_DIMENSION_PAIR_WIDTH_ROW_COUNT" [dim]
  = Some (Z.shiftr dim 4).
Proof.
  intros Hd. unfold Generated.macro, Header.invoke.
  rewrite defines_read. unfold Header.call; simpl.
  rewrite Hd. reflexivity.
Qed.

Lemma macro_col_int (dim : Z) :
  C.is_int dim = true ->
  Generated.macro "VARINT_DIMENSION_PAIR_WIDTH_COL_COUNT" [dim]
  = Some (C.wrap (Z.land (Z.shiftr dim 1) 3 + 1)).
Proof.
  intros Hd. unfold Generated.macro, Header.invoke.
  rewrite defines_read. unfold Header.call; simpl.
  rewrite Hd. reflexivity.
Qed.

Lemma macro_sparse_int (dim : Z) :
  C.is_int dim = true ->
  Generated.macro "VARINT_DIMENSION_PAIR_IS_SPARSE" [dim]
  = Some (Z.land dim 1).
Proof.
  intros Hd. unfold Generated.macro, Header.invoke.
  rewrite defines_read. unfold Header.call; simpl.
  rewrite Hd. reflexivity.
Qed.

(** Where nothing leaves the range of [int], the emitted macros are the
    functions of [Codec]. *)
Lemma macro_pair (x y sparse : Z) :
  -134217728 <= x < 134217728 -> -1073741824 < y <= 1073741824 ->
  C.is_int sparse = true ->
  Generated.macro "VARINT_DIMENSION_PAIR_PAIR" [x; y; sparse]
  = Some (Codec.VARINT_DIMENSION_PAIR_PAIR x y sparse).
Proof.
  intros Hx Hy Hs.
  rewrite macro_pair_int by first [assumption | apply is_int_spec; lia].
  rewrite (wrap_small (y - 1)) by lia.
  rewrite !wrap_small
    by (rewrite Z.shiftl_mul_pow2 by lia;
        change (2 ^ 4) with 16; change (2 ^ 1) with 2; lia).
  reflexivity.
Qed.

Lemma macro_row (dim : Z) :
  C.is_int dim = true ->
  Generated.macro "VARINT_DIMENSION_PAIR_WIDTH_ROW_COUNT" [dim]
  = Some (Codec.VARINT_DIMENSION_PAIR_WIDTH_ROW_COUNT dim).
Proof. apply macro_row_int. Qed.

Lemma macro_col (dim : Z) :
  C.is_int dim = true ->
  Generated.macro "VARINT_DIMENSION_PAIR_WIDTH_COL_COUNT" [dim]
  = Some (Codec.VARINT_DIMENSION_PAIR_WIDTH_COL_COUNT dim).
Proof.
  intros Hd. rewrite macro_col_int by exact Hd.
  rewrite wrap_small; [reflexivity |].
  change 3 with (Z.ones 2). rewrite Z.land_ones by lia.
  pose proof (Z.mod_pos_bound (Z.shiftr dim 1) (2 ^ 2) ltac:(lia)).
  change (2 ^ 2) with 4 in *. lia.
Qed.

Lemma macro_sparse (dim : Z) :
  C.is_int dim = true ->
  Generated.macro "VARINT_DIMENSION_PAIR_IS_SPARSE" [dim]
  = Some (Codec.VARINT_DIMENSION_PAIR_IS_SPARSE dim).
Proof. apply macro_sparse_int. Qed.

Lemma enumerator_eqb_eq (a b : enumerator) :
  enumerator_eqb a b = true -> a = b.
Proof.
  destruct a as [n1 m1 a1 c1], b as [n2 m2 a2 c2].
  unfold enumerator_eqb; simpl.
  rewrite !andb_true_iff. intros [[[Hn Hm] Ha] Hc].
  apply String.eqb_eq in Hn, Hm, Hc.
  destruct (list_eq_dec Z.eq_dec a1 a2) as [-> | ]; [| discriminate].
  now subst.
Qed.

(** A property checked on every pair of generated widths holds of every
    pair of widths in range. *)
Lemma for_all_widths (P : Z -> Z -> bool) :
  forallb (fun x => forallb (P x) Expected.col_widths) Expected.row_widths
  = true ->
  forall x y, 0 <= x <= 8 -> 1 <= y <= 8 -> P x y = true.
Proof.
  intros Hall x y Hx Hy.
  rewrite forallb_forall in Hall.
  assert (Hin : In x Expected.row_widths)
    by (rewrite <- range_row_widths; apply range_spec; lia).
  specialize (Hall x Hin). rewrite forallb_forall in Hall.
  apply Hall. rewrite <- range_col_widths. apply range_spec. lia.
Qed.

(** Every line of the table is the expected constant of some triple of
    the full domain. *)
Lemma table_entries (e : enumerator) :
  In e Generated.table ->
  exists x y sparse, Codec.full x y sparse /\ e = Expected.entry x y sparse.
Proof.
  rewrite table_read. unfold Expected.table.
  rewrite in_flat_map. intros [x [Hx He]].
  rewrite in_flat_map in He. destruct He as [y [Hy He]].
  rewrite <- range_row_widths in Hx. rewrite <- range_col_widths in Hy.
  apply range_spec in Hx. apply range_spec in Hy.
  destruct He as [<- | [<- | []]].
  - exists x, y, 0. unfold Codec.full. repeat split; lia.
  - exists x, y, 1. unfold Codec.full. repeat split; lia.
Qed.

Lemma constant_entry (x y sparse : Z) :
  Codec.full x y sparse ->
  Generated.constant (Expected.entry x y sparse)
  = Some (Codec.VARINT_DIMENSION_PAIR_PAIR x y sparse).
Proof.
  intros (Hx & Hy & Hs). unfold Generated.constant. simpl.
  apply macro_pair; try apply is_int_spec; lia.
Qed.

End Run.

(* ================================================================== *)
(** ** The packing laws *)

Section PackingLaws.
Import Codec.




(** C1.  On row widths 0..8, column widths 1..4 and sparse flags 0..1
    the three accessors applied to the packed value give back the row
    width, the column width and the flag. *)
Theorem unpack_pack_narrow (rowWidth colWidth sparse : Z) :
  narrow rowWidth colWidth sparse ->
  let packed := VARINT_DIMENSION_PAIR_PAIR rowWidth colWidth sparse in
  VARINT_DIMENSION_PAIR_WIDTH_ROW_COUNT packed = rowWidth
  /\ VARINT_DIMENSION_PAIR_WIDTH_COL_COUNT packed = colWidth
  /\ VARINT_DIMENSION_PAIR_IS_SPARSE packed = sparse.
Proof.
  intros (Hr & Hc & Hs) packed. subst packed.
  rewrite pair_sum by lia. refine (conj _ (conj _ _)).
  - rewrite <- Z.add_assoc. apply row_of_sum. lia.
  - rewrite col_of_sum by lia. rewrite Z.mod_small; lia.
  - replace (16 * rowWidth + 2 * (colWidth - 1))
      with (2 * (8 * rowWidth + (colWidth - 1))) by lia.
    apply sparse_of_sum. lia.
Qed.

Lemma unpack_pack_narrow_witness :
  narrow 8 4 1
  /\ VARINT_DIMENSION_PAIR_WIDTH_ROW_COUNT
       (VARINT_DIMENSION_PAIR_PAIR 8 4 1) = 8
  /\ VARINT_DIMENSION_PAIR_WIDTH_COL_COUNT
       (VARINT_DIMENSION_PAIR_PAIR 8 4 1) = 4
  /\ VARINT_DIMENSION_PAIR_IS_SPARSE
       (VARINT_DIMENSION_PAIR_PAIR 8 4 1) = 1.
Proof.
  assert (H : narrow 8 4 1) by (unfold narrow; lia).
  split; [exact H | exact (unpack_pack_narrow 8 4 1 H)].
Defined.

(** C10.  On the full generated domain (column widths 1..8) the row
    accessor and the sparse accessor still give back what was packed;
    the column accessor gives [((colWidth - 1) mod 4) + 1], which is
    [colWidth] up to 4 and [colWidth - 4] from 5 on. *)
Theorem unpack_pack_full (rowWidth colWidth sparse : Z) :
  full rowWidth colWidth sparse ->
  let packed := VARINT_DIMENSION_PAIR_PAIR rowWidth colWidth sparse in
  VARINT_DIMENSION_PAIR_WIDTH_ROW_COUNT packed = rowWidth
  /\ VARINT_DIMENSION_PAIR_IS_SPARSE packed = sparse
  /\ VARINT_DIMENSION_PAIR_WIDTH_COL_COUNT packed = (colWidth - 1) mod 4 + 1
  /\ (colWidth <= 4 -> VARINT_DIMENSION_PAIR_WIDTH_COL_COUNT packed = colWidth)
  /\ (5 <= colWidth ->
      VARINT_DIMENSION_PAIR_WIDTH_COL_COUNT packed = colWidth - 4).
Proof.
  intros (Hr & Hc & Hs) packed. subst packed.
  rewrite pair_sum by lia. refine (conj _ (conj _ (conj _ (conj _ _)))).
  - rewrite <- Z.add_assoc. apply row_of_sum. lia.
  - replace (16 * rowWidth + 2 * (colWidth - 1))
      with (2 * (8 * rowWidth + (colWidth - 1))) by lia.
    apply sparse_of_sum. lia.
  - apply col_of_sum. lia.
  - intros Hle. rewrite col_of_sum by lia. rewrite Z.mod_small; lia.
  - intros Hge. rewrite col_of_sum by lia.
    replace (colWidth - 1) with (colWidth - 5 + 1 * 4) by lia.
    rewrite Z.mod_add by lia. rewrite Z.mod_small; lia.
Qed.

Lemma unpack_pack_full_witness :
  full 3 7 1
  /\ VARINT_DIMENSION_PAIR_WIDTH_ROW_COUNT
       (VARINT_DIMENSION_PAIR_PAIR 3 7 1) = 3
  /\ VARINT_DIMENSION_PAIR_IS_SPARSE (VARINT_DIMENSION_PAIR_PAIR 3 7 1) = 1
  /\ VARINT_DIMENSION_PAIR_WIDTH_COL_COUNT
       (VARINT_DIMENSION_PAIR_PAIR 3 7 1) = 3.
Proof.
  assert (H : full 3 7 1) by (unfold full; lia).
  destruct (unpack_pack_full 3 7 1 H) as (Hrow & Hsp & _ & _ & Hcol).
  refine (conj H (conj Hrow (conj Hsp _))).
  rewrite Hcol by lia. reflexivity.
Defined.

(** C3.  On row widths 0..8, column widths 1..4 and sparse flags 0..1
    two different triples are packed to two different values. *)
Theorem pack_injective_narrow (r c s r' c' s' : Z) :
  narrow r c s -> narrow r' c' s' ->
  (r, c, s) <> (r', c', s') ->
  VARINT_DIMENSION_PAIR_PAIR r c s <> VARINT_DIMENSION_PAIR_PAIR r' c' s'.
Proof.
  intros (Hr & Hc & Hs) (Hr' & Hc' & Hs') Hne Heq.
  rewrite !pair_sum in Heq by lia.
  apply Hne. f_equal; [f_equal |]; lia.
Qed.

Lemma pack_injective_narrow_witness :
  VARINT_DIMENSION_PAIR_PAIR 0 4 1 <> VARINT_DIMENSION_PAIR_PAIR 1 1 0.
Proof.
  apply (pack_injective_narrow 0 4 1 1 1 0).
  - unfold narrow; lia.
  - unfold narrow; lia.
  - intros H. discriminate H.
Defined.

(** C2, as stated, fails: packing column width 5 does not give the
    packed value of column width 1.  [pack(0, 5, 0)] is 8 and
    [pack(0, 1, 0)] is 0. *)
Lemma pack_wide_not_aliased :
  VARINT_DIMENSION_PAIR_PAIR 0 5 0 = 8
  /\ VARINT_DIMENSION_PAIR_PAIR 0 1 0 = 0
  /\ VARINT_DIMENSION_PAIR_PAIR 0 5 0 <> VARINT_DIMENSION_PAIR_PAIR 0 1 0.
Proof.
  refine (conj eq_refl (conj eq_refl _)).
  vm_compute. discriminate.
Qed.

(** C2, amended.  For column widths 5..8 the packed value is 8 more than
    the packed value for [colWidth - 4], so the two differ; what they
    share is the result of the column accessor, [colWidth - 4]. *)
Theorem pack_wide_offset (rowWidth colWidth sparse : Z) :
  0 <= rowWidth <= 8 -> 5 <= colWidth <= 8 -> 0 <= sparse <= 1 ->
  let wide := VARINT_DIMENSION_PAIR_PAIR rowWidth colWidth sparse in
  let low := VARINT_DIMENSION_PAIR_PAIR rowWidth (colWidth - 4) sparse in
  wide = low + 8
  /\ wide <> low
  /\ VARINT_DIMENSION_PAIR_WIDTH_COL_COUNT wide = colWidth - 4
  /\ VARINT_DIMENSION_PAIR_WIDTH_COL_COUNT low = colWidth - 4.
Proof.
  intros Hr Hc Hs wide low. subst wide low.
  rewrite !pair_sum by lia. refine (conj _ (conj _ (conj _ _))).
  - lia.
  - lia.
  - rewrite col_of_sum by lia.
    replace (colWidth - 1) with (colWidth - 5 + 1 * 4) by lia.
    rewrite Z.mod_add by lia. rewrite Z.mod_small; lia.
  - rewrite col_of_sum by lia. rewrite Z.mod_small; lia.
Qed.

Lemma pack_wide_offset_witness :
  VARINT_DIMENSION_PAIR_PAIR 0 5 0 = VARINT_DIMENSION_PAIR_PAIR 0 1 0 + 8.
Proof.
  apply (pack_wide_offset 0 5 0); lia.
Defined.

End PackingLaws.

(* ================================================================== *)
(** ** The generated table *)

Section Table.
Import Header Codec.

Lemma distinct_NoDup (l : list string) : distinct l = true -> NoDup l.
Proof.
  induction l as [| s rest IH]; simpl; intros H.
  - constructor.
  - apply andb_true_iff in H. destruct H as [Hnot Hrest].
    constructor; [| now apply IH].
    intros Hin. apply negb_true_iff in Hnot.
    assert (Hex : existsb (String.eqb s) rest = true).
    { apply existsb_exists. exists s. split; [exact Hin |].
      apply String.eqb_refl. }
    congruence.
Qed.

Lemma table_length : List.length Generated.table = 144%nat.
Proof. rewrite table_read. reflexivity. Qed.

(** The constants are numbered 0, 1, ..., 143 in the order of the
    table. *)
Lemma constants_read :
  map Generated.constant Generated.table
  = map (fun n => Some (Z.of_nat n)) (seq 0 144).
Proof. vm_compute. reflexivity. Qed.

Lemma constants_NoDup : NoDup (map Generated.constant Generated.table).
Proof.
  rewrite constants_read.
  apply Injective_map_NoDup; [| apply seq_NoDup].
  intros a b Hab. injection Hab as Hab. lia.
Qed.

Lemma annotation_entry (x y sparse : Z) :
  0 <= x <= 8 -> 1 <= y <= 8 ->
  annotation (Expected.entry x y sparse)
  = Some (2 ^ (8 * x) - 1, 2 ^ (8 * y) - 1).
Proof.
  intros Hx Hy.
  change (annotation (Expected.entry x y sparse))
    with (annotation (Expected.entry x y 0)).
  pose (P := fun x y =>
    match annotation (Expected.entry x y 0) with
    | Some (r, c) => (r =? 2 ^ (8 * x) - 1) && (c =? 2 ^ (8 * y) - 1)
    | None => false
    end).
  assert (HP : P x y = true)
    by (apply for_all_widths; [vm_compute; reflexivity | lia | lia]).
  unfold P in HP.
  destruct (annotation (Expected.entry x y 0)) as [[r c] |];
    [| discriminate].
  apply andb_true_iff in HP. destruct HP as [Hr Hc].
  apply Z.eqb_eq in Hr, Hc. now subst.
Qed.

(** C5.  Every line of the generated table is annotated with
    [2^(8*rowWidth) - 1] and [2^(8*colWidth) - 1], the widths being the
    first two arguments of its initialiser; that is 0 for row width 0
    and 18446744073709551615 for row width 8. *)
Theorem annotations_exact (e : enumerator) :
  In e Generated.table ->
  exists rowWidth colWidth sparse,
    e_args e = [rowWidth; colWidth; sparse]
    /\ annotation e
       = Some (2 ^ (8 * rowWidth) - 1, 2 ^ (8 * colWidth) - 1)
    /\ (rowWidth = 0 -> option_map fst (annotation e) = Some 0)
    /\ (rowWidth = 8 ->
        option_map fst (annotation e) = Some 18446744073709551615).
Proof.
  intros Hin.
  destruct (table_entries e Hin) as (x & y & s & (Hx & Hy & Hs) & ->).
  exists x, y, s.
  pose proof (annotation_entry x y s Hx Hy) as Ha.
  refine (conj eq_refl (conj Ha (conj _ _)));
    intros ->; rewrite Ha; reflexivity.
Qed.

Lemma annotations_exact_witness :
  exists rowWidth colWidth sparse,
    e_args (Expected.entry 8 1 0) = [rowWidth; colWidth; sparse]
    /\ annotation (Expected.entry 8 1 0)
       = Some (2 ^ (8 * rowWidth) - 1, 2 ^ (8 * colWidth) - 1)
    /\ (rowWidth = 0 ->
        option_map fst (annotation (Expected.entry 8 1 0)) = Some 0)
    /\ (rowWidth = 8 ->
        option_map fst (annotation (Expected.entry 8 1 0))
        = Some 18446744073709551615).
Proof.
  apply (annotations_exact (Expected.entry 8 1 0)).
  apply (nth_error_In Generated.table 128). vm_compute. reflexivity.
Defined.

(** C6.  For widths 2 and 3 the loop body prints the dense and the
    sparse line; the sparse one is in the table, its constant is 37 and
    its annotation reads 65535 x 16777215.  For widths 1 and 1 the dense
    line is in the table with constant 16 and annotation 255 x 255. *)
Theorem end_to_end_scenarios :
  let sprse_2_3 :=
    {| e_name := "VARINT_DIMENSION_PAIR_SPRSE_2_3";
       e_macro := "VARINT_DIMENSION_PAIR_PAIR";
       e_args := [2; 3; 1];
       e_comment := " up to 65535 x 16777215 " |} in
  let dense_1_1 :=
    {| e_name := "VARINT_DIMENSION_PAIR_DENSE_1_1";
       e_macro := "VARINT_DIMENSION_PAIR_PAIR";
       e_args := [1; 1; 0];
       e_comment := " up to 255 x 255 " |} in
  Script.loop_body 2 3 EmptyString
  = inr (tt,
      ("VARINT_DIMENSION_PAIR_DENSE_2_3 = VARINT_DIMENSION_PAIR_PAIR(2, 3, 0), /* up to 65535 x 16777215 */"
       ++ nl ++
       "VARINT_DIMENSION_PAIR_SPRSE_2_3 = VARINT_DIMENSION_PAIR_PAIR(2, 3, 1), /* up to 65535 x 16777215 */"
       ++ nl)%string)
  /\ Script.loop_body 1 1 EmptyString
     = inr (tt,
         ("VARINT_DIMENSION_PAIR_DENSE_1_1 = VARINT_DIMENSION_PAIR_PAIR(1, 1, 0), /* up to 255 x 255 */"
          ++ nl ++
          "VARINT_DIMENSION_PAIR_SPRSE_1_1 = VARINT_DIMENSION_PAIR_PAIR(1, 1, 1), /* up to 255 x 255 */"
          ++ nl)%string)
  /\ In sprse_2_3 Generated.table
  /\ Generated.constant sprse_2_3 = Some 37
  /\ VARINT_DIMENSION_PAIR_PAIR 2 3 1 = 37
  /\ annotation sprse_2_3 = Some (65535, 16777215)
  /\ In dense_1_1 Generated.table
  /\ Generated.constant dense_1_1 = Some 16
  /\ VARINT_DIMENSION_PAIR_PAIR 1 1 0 = 16
  /\ annotation dense_1_1 = Some (255, 255).
Proof.
  intros sprse_2_3 dense_1_1.
  refine (conj _ (conj _ (conj _ (conj _ (conj _
           (conj _ (conj _ (conj _ (conj _ _))))))))).
  - vm_compute. reflexivity.
  - vm_compute. reflexivity.
  - apply (nth_error_In Generated.table 37). vm_compute. reflexivity.
  - vm_compute. reflexivity.
  - reflexivity.
  - vm_compute. reflexivity.
  - apply (nth_error_In Generated.table 16). vm_compute. reflexivity.
  - vm_compute. reflexivity.
  - reflexivity.
  - vm_compute. reflexivity.
Qed.

Lemma names_NoDup : NoDup (map e_name Generated.table).
Proof. apply distinct_NoDup. vm_compute. reflexivity. Qed.

(** C7.  The table has 144 constants with 144 different names.  For every
    row width 0..8 and column width 1..8 it holds the dense constant once
    and the sparse constant once, and these two are all the constants
    initialised with these widths. *)
Theorem table_complete (rowWidth colWidth : Z) :
  0 <= rowWidth <= 8 -> 1 <= colWidth <= 8 ->
  List.length Generated.table = (9 * 8 * 2)%nat
  /\ NoDup (map e_name Generated.table)
  /\ count (enumerator_eqb (Expected.entry rowWidth colWidth 0))
       Generated.table = 1%nat
  /\ count (enumerator_eqb (Expected.entry rowWidth colWidth 1))
       Generated.table = 1%nat
  /\ count (has_widths rowWidth colWidth) Generated.table = 2%nat.
Proof.
  intros Hr Hc.
  pose (P := fun x y =>
    (count (enumerator_eqb (Expected.entry x y 0)) Generated.table =? 1)%nat
    && (count (enumerator_eqb (Expected.entry x y 1)) Generated.table =? 1)%nat
    && (count (has_widths x y) Generated.table =? 2)%nat).
  assert (HP : P rowWidth colWidth = true)
    by (apply for_all_widths; [vm_compute; reflexivity | lia | lia]).
  unfold P in HP.
  apply andb_prop in HP. destruct HP as [HP Hw].
  apply andb_prop in HP. destruct HP as [Hd Hs].
  apply Nat.eqb_eq in Hd, Hs, Hw.
  exact (conj table_length (conj names_NoDup (conj Hd (conj Hs Hw)))).
Qed.

Lemma table_complete_witness :
  List.length Generated.table = (9 * 8 * 2)%nat
  /\ NoDup (map e_name Generated.table)
  /\ count (enumerator_eqb (Expected.entry 8 8 0)) Generated.table = 1%nat
  /\ count (enumerator_eqb (Expected.entry 8 8 1)) Generated.table = 1%nat
  /\ count (has_widths 8 8) Generated.table = 2%nat.
Proof.
  apply (table_complete 8 8); lia.
Defined.

(** C8.  The table is the list obtained by running through the row
    widths 0..8, inside through the column widths 1..8, and taking the
    dense constant and then the sparse one: the pair of widths number
    [8 * rowWidth + (colWidth - 1)] has its dense constant at twice that
    position and its sparse constant right after it. *)
Theorem generation_order (rowWidth colWidth : Z) :
  0 <= rowWidth <= 8 -> 1 <= colWidth <= 8 ->
  let position := (2 * Z.to_nat (8 * rowWidth + (colWidth - 1)))%nat in
  Generated.table = Expected.table
  /\ nth_error Generated.table position
     = Some (Expected.entry rowWidth colWidth 0)
  /\ nth_error Generated.table (S position)
     = Some (Expected.entry rowWidth colWidth 1).
Proof.
  intros Hr Hc position. subst position.
  pose (at_position := fun (n : nat) (e : enumerator) =>
    match nth_error Generated.table n with
    | Some e' => enumerator_eqb e' e
    | None => false
    end).
  pose (P := fun x y =>
    at_position (2 * Z.to_nat (8 * x + (y - 1)))%nat (Expected.entry x y 0)
    && at_position (S (2 * Z.to_nat (8 * x + (y - 1))))
         (Expected.entry x y 1)).
  assert (HP : P rowWidth colWidth = true)
    by (apply for_all_widths; [vm_compute; reflexivity | lia | lia]).
  unfold P in HP. apply andb_prop in HP. destruct HP as [Hd Hs].
  assert (Hat : forall n e, at_position n e = true ->
                nth_error Generated.table n = Some e).
  { intros n e. unfold at_position.
    generalize (nth_error Generated.table n). intros [e' |] He.
    - now rewrite (enumerator_eqb_eq _ _ He).
    - discriminate. }
  exact (conj table_read (conj (Hat _ _ Hd) (Hat _ _ Hs))).
Qed.

Lemma generation_order_witness :
  Generated.table = Expected.table
  /\ nth_error Generated.table 36 = Some (Expected.entry 2 3 0)
  /\ nth_error Generated.table 37 = Some (Expected.entry 2 3 1).
Proof.
  apply (generation_order 2 3); lia.
Defined.

(** C9.  On the full generated domain (column widths 1..8) two different
    triples are still packed to two different values, each between 0 and
    143; each is the value of a constant of the table, and the 144
    constants of the table have pairwise different values. *)
Theorem pack_injective_full (r c s r' c' s' : Z) :
  full r c s -> full r' c' s' ->
  ((r, c, s) <> (r', c', s') ->
   VARINT_DIMENSION_PAIR_PAIR r c s <> VARINT_DIMENSION_PAIR_PAIR r' c' s')
  /\ 0 <= VARINT_DIMENSION_PAIR_PAIR r c s <= 143
  /\ Generated.constant (Expected.entry r c s)
     = Some (VARINT_DIMENSION_PAIR_PAIR r c s)
  /\ In (Some (VARINT_DIMENSION_PAIR_PAIR r c s))
       (map Generated.constant Generated.table)
  /\ List.length Generated.table = 144%nat
  /\ NoDup (map Generated.constant Generated.table).
Proof.
  intros Hfull (Hr' & Hc' & Hs').
  pose proof (constant_entry r c s Hfull) as Hconst.
  destruct Hfull as (Hr & Hc & Hs).
  refine (conj _ (conj _ (conj Hconst
           (conj _ (conj table_length constants_NoDup))))).
  - intros Hne Heq. rewrite !pair_sum in Heq by lia.
    apply Hne. f_equal; [f_equal |]; lia.
  - rewrite pair_sum by lia. lia.
  - rewrite constants_read, pair_sum by lia.
    apply in_map_iff.
    exists (Z.to_nat (16 * r + 2 * (c - 1) + s)). split.
    + f_equal. lia.
    + apply in_seq. lia.
Qed.

Lemma pack_injective_full_witness :
  (((0, 5, 0) : Z * Z * Z) <> (0, 1, 0) ->
   VARINT_DIMENSION_PAIR_PAIR 0 5 0 <> VARINT_DIMENSION_PAIR_PAIR 0 1 0)
  /\ 0 <= VARINT_DIMENSION_PAIR_PAIR 0 5 0 <= 143
  /\ Generated.constant (Expected.entry 0 5 0)
     = Some (VARINT_DIMENSION_PAIR_PAIR 0 5 0)
  /\ In (Some (VARINT_DIMENSION_PAIR_PAIR 0 5 0))
       (map Generated.constant Generated.table)
  /\ List.length Generated.table = 144%nat
  /\ NoDup (map Generated.constant Generated.table).
Proof.
  apply (pack_injective_full 0 5 0 0 1 0); unfold full; lia.
Defined.

End Table.

(* ================================================================== *)
(** ** Further properties of the macros and of the output *)

Section Accessors.
Import Codec.

(** The accessors in terms of division and remainder. *)
Lemma accessors_div_mod (dim : Z) :
  VARINT_DIMENSION_PAIR_WIDTH_ROW_COUNT dim = dim / 16
  /\ VARINT_DIMENSION_PAIR_WIDTH_COL_COUNT dim = (dim / 2) mod 4 + 1
  /\ VARINT_DIMENSION_PAIR_IS_SPARSE dim = dim mod 2.
Proof.
  unfold VARINT_DIMENSION_PAIR_WIDTH_COL_COUNT,
    VARINT_DIMENSION_PAIR_IS_SPARSE, VARINT_DIMENSION_PAIR_WIDTH_ROW_COUNT.
  refine (conj _ (conj _ _)).
  - now rewrite Z.shiftr_div_pow2 by lia.
  - change 3 with (Z.ones 2).
    now rewrite Z.land_ones, Z.shiftr_div_pow2 by lia.
  - change 1 with (Z.ones 1). now rewrite Z.land_ones by lia.
Qed.

(** X1.  Whatever it is applied to, the column accessor answers 1, 2, 3
    or 4 and the sparse accessor 0 or 1; the row accessor is the quotient
    by 16, rounded down. *)
Theorem accessor_ranges (dim : Z) :
  1 <= VARINT_DIMENSION_PAIR_WIDTH_COL_COUNT dim <= 4
  /\ 0 <= VARINT_DIMENSION_PAIR_IS_SPARSE dim <= 1
  /\ 16 * VARINT_DIMENSION_PAIR_WIDTH_ROW_COUNT dim
     <= dim < 16 * VARINT_DIMENSION_PAIR_WIDTH_ROW_COUNT dim + 16.
Proof.
  destruct (accessors_div_mod dim) as (-> & -> & ->).
  Z.div_mod_to_equations. lia.
Qed.

(** X2.  Unpacking any value with the three accessors and packing the
    results again clears bit 3 and keeps every other bit: the result is
    the value itself when bit 3 is clear and the value minus 8 when it is
    set. *)
Theorem pack_unpack (dim : Z) :
  VARINT_DIMENSION_PAIR_PAIR
    (VARINT_DIMENSION_PAIR_WIDTH_ROW_COUNT dim)
    (VARINT_DIMENSION_PAIR_WIDTH_COL_COUNT dim)
    (VARINT_DIMENSION_PAIR_IS_SPARSE dim)
  = dim - 8 * ((dim / 8) mod 2)
  /\ (dim / 8) mod 2 = (if Z.testbit dim 3 then 1 else 0).
Proof.
  split.
  - destruct (accessors_div_mod dim) as (-> & -> & ->).
    rewrite pair_sum by (Z.div_mod_to_equations; lia).
    Z.div_mod_to_equations. lia.
  - change 8 with (2 ^ 3). rewrite <- Z.testbit_spec' by lia.
    now destruct (Z.testbit dim 3).
Qed.

(** X3.  A column width beyond 8 does not fit the three bits below the
    row field: packing [colWidth + 8] sets the lowest bit of the row
    field instead, so for an even row width
    [pack(r, colWidth + 8, sparse)] is [pack(r + 1, colWidth, sparse)]. *)
Theorem pack_column_overflow (rowWidth colWidth sparse : Z) :
  1 <= colWidth <= 8 -> 0 <= sparse <= 1 ->
  VARINT_DIMENSION_PAIR_PAIR rowWidth (colWidth + 8) sparse
  = VARINT_DIMENSION_PAIR_PAIR (Z.lor rowWidth 1) colWidth sparse
  /\ (Z.even rowWidth = true ->
      VARINT_DIMENSION_PAIR_PAIR rowWidth (colWidth + 8) sparse
      = VARINT_DIMENSION_PAIR_PAIR (rowWidth + 1) colWidth sparse).
Proof.
  intros Hc Hs.
  assert (Hspill :
    VARINT_DIMENSION_PAIR_PAIR rowWidth (colWidth + 8) sparse
    = VARINT_DIMENSION_PAIR_PAIR (Z.lor rowWidth 1) colWidth sparse).
  { unfold VARINT_DIMENSION_PAIR_PAIR. f_equal.
    replace (Z.shiftl (colWidth + 8 - 1) 1)
      with (Z.lor (Z.shiftl 1 4) (Z.shiftl (colWidth - 1) 1)).
    - now rewrite Z.lor_assoc, <- Z.shiftl_lor.
    - assert (Hlow : Z.shiftl (colWidth - 1) 1 = 2 * (colWidth - 1))
        by (rewrite Z.shiftl_mul_pow2 by lia; change (2 ^ 1) with 2; lia).
      rewrite Hlow, lor_shiftl_low by (change (2 ^ 4) with 16; lia).
      rewrite Z.shiftl_mul_pow2 by lia.
      change (2 ^ 4) with 16. change (2 ^ 1) with 2. lia. }
  split; [exact Hspill |].
  intros Heven. rewrite Hspill. f_equal.
  apply Z.even_spec in Heven. destruct Heven as [k ->].
  replace (2 * k) with (Z.shiftl k 1)
    by (rewrite Z.shiftl_mul_pow2 by lia; change (2 ^ 1) with 2; lia).
  rewrite lor_shiftl_low by (change (2 ^ 1) with 2; lia).
  rewrite Z.shiftl_mul_pow2 by lia. reflexivity.
Qed.

Lemma pack_column_overflow_witness :
  VARINT_DIMENSION_PAIR_PAIR 0 9 0 = VARINT_DIMENSION_PAIR_PAIR 1 1 0.
Proof.
  apply (pack_column_overflow 0 1 0); [lia | lia | reflexivity].
Defined.

End Accessors.

Section Output.
Import Header Codec.

Lemma append_assoc (a b c : string) :
  ((a ++ b) ++ c = a ++ (b ++ c))%string.
Proof.
  induction a as [| ch a IH]; simpl; [reflexivity | now rewrite IH].
Qed.

(** The digit limit of [str]. *)
Lemma str_limit_value : Py.str_limit = 10 ^ 4300.
Proof. vm_compute. reflexivity. Qed.

Lemma str_small (n : Z) :
  Z.abs n < 10 ^ 4300 -> Py.str n = inr (Py.decimal n).
Proof.
  intros Hn. unfold Py.str. rewrite str_limit_value.
  set (limit := 10 ^ 4300) in *. clearbody limit.
  destruct (Z.ltb_spec (Z.abs n) limit); [reflexivity | lia].
Qed.

Lemma str_big (n : Z) :
  10 ^ 4300 <= Z.abs n -> Py.str n = inl Py.ValueError.
Proof.
  intros Hn. unfold Py.str. rewrite str_limit_value.
  set (limit := 10 ^ 4300) in *. clearbody limit.
  destruct (Z.ltb_spec (Z.abs n) limit); [lia | reflexivity].
Qed.

Lemma str_cases (n : Z) :
  Py.str n = inr (Py.decimal n) \/ Py.str n = inl Py.ValueError.
Proof.
  destruct (Z.lt_ge_cases (Z.abs n) (10 ^ 4300)).
  - left. now apply str_small.
  - right. now apply str_big.
Qed.

(** The largest row and column counts that can still be printed are
    those of width 1785. *)
Lemma max_count_small (w : Z) :
  0 <= w <= 1785 -> Z.abs (2 ^ (8 * w) - 1) < 10 ^ 4300.
Proof.
  intros Hw.
  assert (H1 : 0 < 2 ^ (8 * w)) by (apply Z.pow_pos_nonneg; lia).
  assert (H2 : 2 ^ (8 * w) <= 2 ^ 14280)
    by (apply Z.pow_le_mono_r; lia).
  assert (H3 : 2 ^ 14280 < 10 ^ 4300)
    by (apply Z.ltb_lt; vm_compute; reflexivity).
  set (limit := 10 ^ 4300) in *. set (top := 2 ^ 14280) in *.
  clearbody limit top. lia.
Qed.

Lemma max_count_big (w : Z) :
  1786 <= w -> 10 ^ 4300 <= Z.abs (2 ^ (8 * w) - 1).
Proof.
  intros Hw.
  assert (H2 : 2 ^ 14288 <= 2 ^ (8 * w))
    by (apply Z.pow_le_mono_r; lia).
  assert (H3 : 10 ^ 4300 <= 2 ^ 14288 - 1)
    by (apply Z.leb_le; vm_compute; reflexivity).
  set (limit := 10 ^ 4300) in *. set (bottom := 2 ^ 14288) in *.
  clearbody limit bottom. lia.
Qed.

Lemma width_small (w : Z) : 0 <= w <= 1785 -> Z.abs w < 10 ^ 4300.
Proof.
  intros Hw.
  assert (H : 1785 < 10 ^ 4300)
    by (apply Z.ltb_lt; vm_compute; reflexivity).
  set (limit := 10 ^ 4300) in *. clearbody limit. lia.
Qed.

(** What formatting the two templates does with six arguments, for any
    way of rendering them: the renderings are made in order, the first
    failure is the outcome, and otherwise the line is put together. *)
Lemma format_dense (render : Z -> Py.exn + string) (a b c d e f : Z) :
  Py.format_with render Script.dense_template [a; b; c; d; e; f]
  = match render a with inl err => inl err | inr sa =>
    match render b with inl err => inl err | inr sb =>
    match render c with inl err => inl err | inr sc =>
    match render d with inl err => inl err | inr sd =>
    match render e with inl err => inl err | inr se =>
    match render f with inl err => inl err | inr sf =>
      inr ("VARINT_DIMENSION_PAIR_DENSE_" ++ sa ++ "_" ++ sb
           ++ " = VARINT_DIMENSION_PAIR_PAIR(" ++ sc ++ ", " ++ sd
           ++ ", 0), /* up to " ++ se ++ " x " ++ sf ++ " */")%string
    end end end end end end.
Proof.
  vm_compute.
  destruct (render a); [reflexivity |]. destruct (render b); [reflexivity |].
  destruct (render c); [reflexivity |]. destruct (render d); [reflexivity |].
  destruct (render e); [reflexivity |]. destruct (render f); reflexivity.
Qed.

Lemma format_sprse (render : Z -> Py.exn + string) (a b c d e f : Z) :
  Py.format_with render Script.sprse_template [a; b; c; d; e; f]
  = match render a with inl err => inl err | inr sa =>
    match render b with inl err => inl err | inr sb =>
    match render c with inl err => inl err | inr sc =>
    match render d with inl err => inl err | inr sd =>
    match render e with inl err => inl err | inr se =>
    match render f with inl err => inl err | inr sf =>
      inr ("VARINT_DIMENSION_PAIR_SPRSE_" ++ sa ++ "_" ++ sb
           ++ " = VARINT_DIMENSION_PAIR_PAIR(" ++ sc ++ ", " ++ sd
           ++ ", 1), /* up to " ++ se ++ " x " ++ sf ++ " */")%string
    end end end end end end.
Proof.
  vm_compute.
  destruct (render a); [reflexivity |]. destruct (render b); [reflexivity |].
  destruct (render c); [reflexivity |]. destruct (render d); [reflexivity |].
  destruct (render e); [reflexivity |]. destruct (render f); reflexivity.
Qed.



(** X5.  Both templates have exactly six replacement fields.  When the
    arguments a call reaches, the first six, can all be printed (fewer
    than 4301 digits), formatting with fewer than six arguments raises
    [IndexError], and with six or more it succeeds and ignores what
    follows the sixth.  When one of them cannot be printed the call
    raises [ValueError], however many arguments there are. *)
Theorem templates_take_six (template : string) (args : list Z) :
  template = Script.dense_template \/ template = Script.sprse_template ->
  (Forall (fun a => Z.abs a < 10 ^ 4300) (firstn 6 args) ->
   ((List.length args < 6)%nat ->
    Py.format template args = inl Py.IndexError)
   /\ ((6 <= List.length args)%nat ->
       exists line,
         Py.format template args = inr line
         /\ Py.format template (firstn 6 args) = inr line))
  /\ (Exists (fun a => 10 ^ 4300 <= Z.abs a) (firstn 6 args) ->
      Py.format template args = inl Py.ValueError).
Proof.
  intros Ht.
  assert (Hsmall : forall a, Z.abs a < 10 ^ 4300 ->
                   Py.str a = inr (Py.decimal a)) by exact str_small.
  assert (Hbig : forall a, 10 ^ 4300 <= Z.abs a ->
                 Py.str a = inl Py.ValueError) by exact str_big.
  assert (Hcases : forall a, Py.str a = inr (Py.decimal a)
                             \/ Py.str a = inl Py.ValueError)
    by exact str_cases.
  unfold Py.format. revert Hsmall Hbig Hcases.
  generalize Py.str. intros render Hsmall Hbig Hcases.
  split.
  - intros Hall. split; intros Hlen.
    + destruct args as [| a [| b [| c [| d [| e [| f rest]]]]]];
        simpl in Hlen; try lia; simpl in Hall;
        repeat match goal with
               | H : Forall _ (_ :: _) |- _ =>
                   let Hh := fresh "Hh" in
                   let Ht' := fresh "Ht" in
                   apply Forall_cons_iff in H; destruct H as [Hh Ht'];
                   apply Hsmall in Hh
               end;
        destruct Ht as [-> | ->]; vm_compute;
        repeat match goal with
               | H : render ?t = inr _ |- _ => rewrite H; clear H
               end; reflexivity.
    + destruct args as [| a [| b [| c [| d [| e [| f rest]]]]]];
        simpl in Hlen; try lia.
      simpl in Hall.
      repeat match goal with
             | H : Forall _ (_ :: _) |- _ =>
                 let Hh := fresh "Hh" in
                 let Ht' := fresh "Ht" in
                 apply Forall_cons_iff in H; destruct H as [Hh Ht'];
                 apply Hsmall in Hh
             end.
      destruct Ht as [-> | ->]; eexists; split; vm_compute;
        repeat match goal with
               | H : render ?t = inr _ |- _ => rewrite H; clear H
               end; reflexivity.
  - intros Hex.
    assert (Hone : exists t, In t (firstn 6 args)
                             /\ render t = inl Py.ValueError).
    { apply Exists_exists in Hex. destruct Hex as (t & Hin & Ht').
      exists t. split; [exact Hin | now apply Hbig]. }
    clear Hex. destruct Hone as (t & Hin & Hfail).
    destruct args as [| a [| b [| c [| d [| e [| f rest]]]]]];
      simpl in Hin;
      destruct Ht as [-> | ->]; vm_compute;
      repeat match goal with
             | |- context [render ?u] =>
                 let E := fresh "E" in
                 destruct (Hcases u) as [E | E]; rewrite E
             end;
      try reflexivity;
      exfalso; intuition (subst; congruence).
Qed.

Lemma templates_take_six_witness :
  exists line,
    Py.format Script.dense_template [1; 2; 3; 4; 5; 6; 7] = inr line
    /\ Py.format Script.dense_template (firstn 6 [1; 2; 3; 4; 5; 6; 7])
       = inr line.
Proof.
  apply (templates_take_six Script.dense_template [1; 2; 3; 4; 5; 6; 7]).
  - left. reflexivity.
  - apply Forall_forall. intros a Ha.
    assert (H : 6 < 10 ^ 4300) by (apply Z.ltb_lt; vm_compute; reflexivity).
    simpl in Ha. set (limit := 10 ^ 4300) in *. clearbody limit. lia.
  - simpl. lia.
Defined.

(** X6.  The whole output is the packing macro, the three accessor
    macros, two empty lines, the opening of the enumeration, one line per
    constant of the table and the closing line, each ended by a line
    feed. *)
Theorem output_layout :
  Script.stdout
  = inr (Script.pair_define ++ nl
         ++ Script.row_define ++ nl
         ++ Script.col_define ++ nl
         ++ Script.sparse_define ++ nl
         ++ nl
         ++ nl
         ++ Script.enum_open ++ nl
         ++ String.concat EmptyString
              (map (fun e => line_of e ++ nl) Generated.table)
         ++ Script.enum_close ++ nl)%string.
Proof. vm_compute. reflexivity. Qed.

(** X7.  The constants are numbered by their position: the constant on
    line [i] of the table, counting from 0, has value [i]. *)
Theorem constants_numbered (i : nat) (e : enumerator) :
  nth_error Generated.table i = Some e ->
  Generated.constant e = Some (Z.of_nat i).
Proof.
  intros Hnth.
  assert (Hi : (i < 144)%nat).
  { rewrite <- table_length. apply nth_error_Some. congruence. }
  pose proof (map_nth_error Generated.constant i Generated.table Hnth) as Hm.
  rewrite constants_read, nth_error_map, nth_error_seq in Hm.
  destruct (Nat.ltb_spec i 144) as [_ | Hge]; [| lia].
  simpl in Hm. congruence.
Qed.

Lemma constants_numbered_witness :
  Generated.constant (Expected.entry 2 3 1) = Some 37.
Proof.
  apply (constants_numbered 37 (Expected.entry 2 3 1)).
  vm_compute. reflexivity.
Defined.

(** X8.  Applied to the value of any constant of the table, the row
    accessor gives the row width and the sparse accessor the flag the
    constant was initialised with, and they give back its name; the
    column accessor gives the column width only up to 4, which is the case
    for 72 of the 144 constants. *)
Theorem table_accessors (e : enumerator) :
  In e Generated.table ->
  exists x y sparse v,
    e_args e = [x; y; sparse]
    /\ Generated.constant e = Some v
    /\ VARINT_DIMENSION_PAIR_WIDTH_ROW_COUNT v = x
    /\ VARINT_DIMENSION_PAIR_IS_SPARSE v = sparse
    /\ e_name e
       = ("VARINT_DIMENSION_PAIR_"
          ++ (if (VARINT_DIMENSION_PAIR_IS_SPARSE v =? 0)%Z
              then "DENSE" else "SPRSE")
          ++ "_" ++ Py.decimal (VARINT_DIMENSION_PAIR_WIDTH_ROW_COUNT v)
          ++ "_" ++ Py.decimal y)%string
    /\ (VARINT_DIMENSION_PAIR_WIDTH_COL_COUNT v = y <-> y <= 4)
    /\ count decodes_col Generated.table = 72%nat.
Proof.
  intros Hin.
  destruct (table_entries e Hin) as (x & y & s & Hfull & ->).
  pose proof (constant_entry x y s Hfull) as Hconst.
  destruct Hfull as (Hx & Hy & Hs). clear Hin.
  exists x, y, s, (VARINT_DIMENSION_PAIR_PAIR x y s).
  assert (Hrow : VARINT_DIMENSION_PAIR_WIDTH_ROW_COUNT
                   (VARINT_DIMENSION_PAIR_PAIR x y s) = x).
  { rewrite pair_sum by lia. rewrite <- Z.add_assoc.
    apply row_of_sum. lia. }
  assert (Hsp : VARINT_DIMENSION_PAIR_IS_SPARSE
                  (VARINT_DIMENSION_PAIR_PAIR x y s) = s).
  { rewrite pair_sum by lia.
    replace (16 * x + 2 * (y - 1)) with (2 * (8 * x + (y - 1))) by lia.
    apply sparse_of_sum. lia. }
  refine (conj eq_refl (conj Hconst
           (conj Hrow (conj Hsp (conj _ (conj _ _)))))).
  - rewrite Hrow, Hsp. reflexivity.
  - clear - Hx Hy Hs. rewrite pair_sum, col_of_sum by lia.
    Z.div_mod_to_equations. lia.
  - vm_compute. reflexivity.
Qed.

Lemma table_accessors_witness :
  exists x y sparse v,
    e_args (Expected.entry 0 5 0) = [x; y; sparse]
    /\ Generated.constant (Expected.entry 0 5 0) = Some v
    /\ VARINT_DIMENSION_PAIR_WIDTH_ROW_COUNT v = x
    /\ VARINT_DIMENSION_PAIR_IS_SPARSE v = sparse
    /\ e_name (Expected.entry 0 5 0)
       = ("VARINT_DIMENSION_PAIR_"
          ++ (if (VARINT_DIMENSION_PAIR_IS_SPARSE v =? 0)%Z
              then "DENSE" else "SPRSE")
          ++ "_" ++ Py.decimal (VARINT_DIMENSION_PAIR_WIDTH_ROW_COUNT v)
          ++ "_" ++ Py.decimal y)%string
    /\ (VARINT_DIMENSION_PAIR_WIDTH_COL_COUNT v = y <-> y <= 4)
    /\ count decodes_col Generated.table = 72%nat.
Proof.
  apply (table_accessors (Expected.entry 0 5 0)).
  apply (nth_error_In Generated.table 8). vm_compute. reflexivity.
Defined.

End Output.
